(** * A shallow embedding of the notes service of src/main.py

    The FastAPI handlers of [src/main.py] are modelled as computations in a
    small state-and-exception monad over the relational store (the [user]
    and [note] tables).  A raised [HTTPException(status_code, detail)] is
    the [Exc] outcome; the store reached so far is returned alongside it,
    as the session had it when the exception left the handler. *)

From Stdlib Require Import ZArith Ascii String List Bool Lia.
Import ListNotations.
Open Scope string_scope.
Open Scope Z_scope.

(** ** Time

    [datetime] values are kept at their native resolution: an instant is a
    number of microseconds since the epoch. *)
Definition instant := Z.
Definition usec_per_sec : Z := 1000000.

(** [timedelta(minutes=m)] in microseconds. *)
Definition timedelta_minutes (m : Z) : instant := m * 60 * usec_per_sec.

Definition ACCESS_TOKEN_EXPIRE_MINUTES : Z := 30.

(** ** Database models (class User, class Note) *)
Module User.
Record t := mk {
  id : Z;
  username : string;
  email : string;
  hashed_password : string;
  created_at : instant
}.
End User.

Module Note.
Record t := mk {
  id : Z;
  content : string;
  is_completed : bool;
  tags : option string;
  created_at : instant;
  updated_at : instant;
  user_id : Z
}.
End Note.

(** Request bodies: NoteCreate (already validated by pydantic), UserCreate,
    UserLogin. *)
Module NoteCreate.
Record t := mk { content : string; is_completed : bool; tags : option string }.
End NoteCreate.

Module UserCreate.
Record t := mk { username : string; email : string; password : string }.
End UserCreate.

Module UserLogin.
Record t := mk { username : string; password : string }.
End UserLogin.

(** ** JWT payloads and tokens

    A payload is the claim set the service ever signs: the dict
    [{"user_id": ...}] passed to [create_access_token], with the ["exp"]
    claim that function adds.  [None] is an absent key (for [user_id],
    [payload.get("user_id")] then returns [None]).  ["exp"] is a NumericDate:
    whole seconds since the epoch. *)
Module Payload.
Record t := mk { user_id : option Z; exp : option Z }.
End Payload.

Module Token.
Record t := mk { payload : Payload.t; signature : Z }.
End Token.

(** The response of [/login] (class Token in the source). *)
Module TokenResponse.
Record t := mk { access_token : Token.t; token_type : string }.
End TokenResponse.

(** The response of [DELETE /notes/{id}]: [{"message": ..., "id": note_id}]. *)
Module DeleteResponse.
Record t := mk { message : string; id : Z }.
End DeleteResponse.

(** ** The record store and the handler monad *)
Record db := mkDb { users : list User.t; notes : list Note.t }.

Inductive result (A : Type) : Type :=
| Ok (a : A)
| Exc (status_code : Z) (detail : string).
Arguments Ok {A} a.
Arguments Exc {A} status_code detail.

Definition M (A : Type) : Type := db -> result A * db.

Definition ret {A} (a : A) : M A := fun s => (Ok a, s).

(** [raise HTTPException(status_code=c, detail=d)] *)
Definition raise {A} (c : Z) (d : string) : M A := fun s => (Exc c d, s).

Definition bind {A B} (m : M A) (k : A -> M B) : M B :=
  fun s => match m s with
           | (Ok a, s') => k a s'
           | (Exc c d, s') => (Exc c d, s')
           end.

Notation "x <- m ;; k" := (bind m (fun x => k))
  (at level 61, m at next level, right associativity).

(** A pure computation that may raise. *)
Definition lift {A} (r : result A) : M A := fun s => (r, s).

(** ** Session operations (sqlmodel) *)

(** [session.get(User, user_id)]: lookup by primary key. *)
Definition session_get_user (uid : Z) : M (option User.t) :=
  fun s => (Ok (find (fun u => User.id u =? uid) (users s)), s).

(** [session.get(Note, note_id)] *)
Definition session_get_note (nid : Z) : M (option Note.t) :=
  fun s => (Ok (find (fun n => Note.id n =? nid) (notes s)), s).

(** [session.exec(select(User).where(User.username == name)).first()] *)
Definition select_user_by_username (name : string) : M (option User.t) :=
  fun s => (Ok (find (fun u => String.eqb (User.username u) name) (users s)), s).

(** [session.exec(select(User).where(User.email == e)).first()] *)
Definition select_user_by_email (e : string) : M (option User.t) :=
  fun s => (Ok (find (fun u => String.eqb (User.email u) e) (users s)), s).

(** [session.exec(select(Note).where(Note.user_id == uid)).all()]: the rows
    in table order. *)
Definition select_notes_by_user (uid : Z) : M (list Note.t) :=
  fun s => (Ok (filter (fun n => Note.user_id n =? uid) (notes s)), s).

(** The integer primary key SQLite gives a new row: one more than the
    largest key in the table, and 1 for an empty table. *)
Definition next_id (ids : list Z) : Z :=
  match ids with
  | [] => 1
  | k :: ks => fold_right Z.max k ks + 1
  end.

(** [session.add(new_user); session.commit()] for a new user row. *)
Definition insert_user (u : User.t) : M unit :=
  fun s => (Ok tt, mkDb (users s ++ [u]) (notes s)).

(** [session.add(note); session.commit()] for a new note row. *)
Definition insert_note (n : Note.t) : M unit :=
  fun s => (Ok tt, mkDb (users s) (notes s ++ [n])).

(** [session.add(note); session.commit()] for a loaded, modified note:
    [UPDATE note SET ... WHERE id = note.id]. *)
Definition update_note_row (n : Note.t) : M unit :=
  fun s => (Ok tt, mkDb (users s)
                     (map (fun r => if Note.id r =? Note.id n then n else r)
                          (notes s))).

(** [session.delete(note); session.commit()]:
    [DELETE FROM note WHERE id = note.id]. *)
Definition delete_note_row (n : Note.t) : M unit :=
  fun s => (Ok tt, mkDb (users s)
                     (filter (fun r => negb (Note.id r =? Note.id n)) (notes s))).

(** [session.refresh(note)]: the row as stored under the note's key. *)
Definition session_refresh_note (n : Note.t) : M Note.t :=
  r <- session_get_note (Note.id n) ;;
  match r with Some n' => ret n' | None => ret n end.

(** ** The service

    The signing primitive (HS256 over the payload with the secret), the
    secret itself and the bcrypt context are the parameters of the
    service. *)
Section Service.

Variable SECRET_KEY : string.
Variable hs256 : string -> Payload.t -> Z.
Variable hash_password : string -> string.
Variable verify_password : string -> string -> bool.

(** [jwt.encode(payload, SECRET_KEY, algorithm="HS256")] *)
Definition jwt_encode (p : Payload.t) : Token.t :=
  Token.mk p (hs256 SECRET_KEY p).

(** A [datetime] claim is encoded as [timegm(value.utctimetuple())]: the
    whole seconds of the instant. *)
Definition numeric_date (t : instant) : Z := t / usec_per_sec.

(** [create_access_token(data)] at the instant [now] returned by
    [datetime.utcnow()]. *)
Definition create_access_token (now : instant) (data : Payload.t) : Token.t :=
  let expire := now + timedelta_minutes ACCESS_TOKEN_EXPIRE_MINUTES in
  jwt_encode (Payload.mk (Payload.user_id data) (Some (numeric_date expire))).

(** The two [InvalidTokenError]s [jwt.decode] raises here: a bad signature
    ([InvalidSignatureError]) and a past ["exp"] ([ExpiredSignatureError]). *)
Inductive jwt_error := ExpiredSignatureError | InvalidSignatureError.

(** [jwt.decode(token, SECRET_KEY, algorithms=["HS256"])] at the instant
    [now]: the signature is checked first, then ["exp"], which has expired
    when [exp <= now] (no leeway). *)
Definition jwt_decode (now : instant) (tok : Token.t) : jwt_error + Payload.t :=
  let p := Token.payload tok in
  if negb (Token.signature tok =? hs256 SECRET_KEY p) then inl InvalidSignatureError
  else match Payload.exp p with
       | Some e => if e * usec_per_sec <=? now then inl ExpiredSignatureError
                   else inr p
       | None => inr p
       end.

(** [verify_token(token)].  An expired token is caught by the first
    [except] clause.  Any other error reaches the second clause, whose
    expression [jwt.JWTError] names no attribute of the PyJWT module: its
    evaluation raises [AttributeError], which no clause catches and which
    [global_exception_handler] answers with
    [JSONResponse(status_code=500, content={"detail": "Internal server error"})]. *)
Definition verify_token (now : instant) (tok : Token.t) : result Payload.t :=
  match jwt_decode now tok with
  | inr p => Ok p
  | inl ExpiredSignatureError => Exc 401 "Token has expired"
  | inl InvalidSignatureError => Exc 500 "Internal server error"
  end.

(** [get_current_user(credentials, session)]; [if not user_id] rejects an
    absent [user_id] and the falsy integer [0]. *)
Definition get_current_user (now : instant) (credentials : Token.t) : M User.t :=
  payload <- lift (verify_token now credentials) ;;
  match Payload.user_id payload with
  | None => raise 401 "Invalid token"
  | Some user_id =>
      if user_id =? 0 then raise 401 "Invalid token"
      else user <- session_get_user user_id ;;
           match user with
           | None => raise 401 "User not found"
           | Some u => ret u
           end
  end.

(** [register(user_data, session)] *)
Definition register (now : instant) (user_data : UserCreate.t) : M User.t :=
  existing_user <- select_user_by_username (UserCreate.username user_data) ;;
  match existing_user with
  | Some _ => raise 400 "Username already exists"
  | None =>
    existing_email <- select_user_by_email (UserCreate.email user_data) ;;
    match existing_email with
    | Some _ => raise 400 "Email already exists"
    | None =>
      fun s =>
        let new_user := User.mk (next_id (map User.id (users s)))
                          (UserCreate.username user_data)
                          (UserCreate.email user_data)
                          (hash_password (UserCreate.password user_data))
                          now in
        (_ <- insert_user new_user ;; ret new_user) s
    end
  end.

Definition INCORRECT_CREDENTIALS : string := "Incorrect username or password".

(** [login(user_data, session)] *)
Definition login (now : instant) (user_data : UserLogin.t) : M TokenResponse.t :=
  user <- select_user_by_username (UserLogin.username user_data) ;;
  match user with
  | None => raise 401 INCORRECT_CREDENTIALS
  | Some u =>
    if negb (verify_password (UserLogin.password user_data) (User.hashed_password u))
    then raise 401 INCORRECT_CREDENTIALS
    else
      let access_token :=
        create_access_token now (Payload.mk (Some (User.id u)) None) in
      ret (TokenResponse.mk access_token "bearer")
  end.

End Service.

(** ** Note handlers, given the resolved [current_user] *)

(** [create_note(note_input, current_user, session)].  Building the row
    object runs the two [default_factory=datetime.utcnow] defaults one after
    the other: [created_at] reads the clock at [t_created], [updated_at]
    reads it again at [t_updated]. *)
Definition create_note (t_created t_updated : instant) (note_input : NoteCreate.t)
    (current_user : User.t) : M Note.t :=
  fun s =>
    let note := Note.mk (next_id (map Note.id (notes s)))
                  (NoteCreate.content note_input)
                  (NoteCreate.is_completed note_input)
                  (NoteCreate.tags note_input)
                  t_created t_updated (User.id current_user) in
    (_ <- insert_note note ;; session_refresh_note note) s.

(** [get_notes(current_user, session)] *)
Definition get_notes (current_user : User.t) : M (list Note.t) :=
  select_notes_by_user (User.id current_user).

(** [get_note(note_id, current_user, session)] *)
Definition get_note (note_id : Z) (current_user : User.t) : M Note.t :=
  note <- session_get_note note_id ;;
  match note with
  | None => raise 404 "Note not found"
  | Some note =>
    if negb (Note.user_id note =? User.id current_user)
    then raise 403 "Not authorized to access this note"
    else ret note
  end.

(** [update_note(note_id, note_update, current_user, session)]: the three
    assignments [note.content], [note.is_completed], [note.tags]; every
    other column keeps the value loaded from the store. *)
Definition update_note (note_id : Z) (note_update : NoteCreate.t)
    (current_user : User.t) : M Note.t :=
  note <- session_get_note note_id ;;
  match note with
  | None => raise 404 "Note not found"
  | Some note =>
    if negb (Note.user_id note =? User.id current_user)
    then raise 403 "Not authorized to update this note"
    else
      let note := Note.mk (Note.id note)
                    (NoteCreate.content note_update)
                    (NoteCreate.is_completed note_update)
                    (NoteCreate.tags note_update)
                    (Note.created_at note) (Note.updated_at note)
                    (Note.user_id note) in
      _ <- update_note_row note ;;
      session_refresh_note note
  end.

(** [delete_note(note_id, current_user, session)] *)
Definition delete_note (note_id : Z) (current_user : User.t) : M DeleteResponse.t :=
  note <- session_get_note note_id ;;
  match note with
  | None => raise 404 "Note not found"
  | Some note =>
    if negb (Note.user_id note =? User.id current_user)
    then raise 403 "Not authorized to delete this note"
    else
      _ <- delete_note_row note ;;
      ret (DeleteResponse.mk "Note deleted successfully" note_id)
  end.

(** ** Endpoints: the [get_current_user] dependency runs first *)
Section Endpoints.

Variable SECRET_KEY : string.
Variable hs256 : string -> Payload.t -> Z.

Let current (now : instant) (cred : Token.t) : M User.t :=
  get_current_user SECRET_KEY hs256 now cred.

(** [now] is the instant the token is verified at; [t_created] and
    [t_updated] are the clock reads of the row's two timestamp defaults. *)
Definition create_note_ep (now t_created t_updated : instant) (cred : Token.t)
    (note_input : NoteCreate.t) : M Note.t :=
  u <- current now cred ;; create_note t_created t_updated note_input u.

Definition get_notes_ep (now : instant) (cred : Token.t) : M (list Note.t) :=
  u <- current now cred ;; get_notes u.

Definition get_note_ep (now : instant) (cred : Token.t) (note_id : Z) : M Note.t :=
  u <- current now cred ;; get_note note_id u.

Definition update_note_ep (now : instant) (cred : Token.t) (note_id : Z)
    (note_update : NoteCreate.t) : M Note.t :=
  u <- current now cred ;; update_note note_id note_update u.

Definition delete_note_ep (now : instant) (cred : Token.t) (note_id : Z)
    : M DeleteResponse.t :=
  u <- current now cred ;; delete_note note_id u.

End Endpoints.

(** ** Failure atomicity

    [fails_cleanly s r]: when the outcome [r] of a request run on the store
    [s] is an exception, the store it leaves is [s] itself. *)
Definition fails_cleanly {A} (s : db) (r : result A * db) : Prop :=
  match fst r with
  | Ok _ => True
  | Exc _ _ => snd r = s
  end.

(** ** Input validation (NoteCreate.content_must_not_be_empty)

    Content strings are over the ASCII characters.  [str.isspace] holds on
    these for tab, line feed, vertical tab, form feed, carriage return, the
    separators 0x1c to 0x1f and space. *)
Definition py_isspace (c : ascii) : bool :=
  let n := nat_of_ascii c in
  ((9 <=? n)%nat && (n <=? 13)%nat) || ((28 <=? n)%nat && (n <=? 32)%nat).

Fixpoint lstrip_chars (l : list ascii) : list ascii :=
  match l with
  | [] => []
  | c :: r => if py_isspace c then lstrip_chars r else l
  end.

(** [str.strip()]: the leading whitespace, then the trailing whitespace,
    removed. *)
Definition py_strip (s : string) : string :=
  string_of_list_ascii
    (rev (lstrip_chars (rev (lstrip_chars (list_ascii_of_string s))))).

Inductive validation (A : Type) : Type :=
| Valid (a : A)
| ValueError (msg : string).
Arguments Valid {A} a.
Arguments ValueError {A} msg.

(** [content_must_not_be_empty(v)]: [if not v or not v.strip()]. *)
Definition content_must_not_be_empty (v : string) : validation string :=
  if String.eqb v "" || String.eqb (py_strip v) ""
  then ValueError "Content cannot be empty"
  else Valid v.

(** ** Store well-formedness

    What the tables keep as the service writes them: distinct primary keys,
    positive user keys (keys are handed out from 1 upwards), and the
    [unique=True] columns [username] and [email] distinct. *)
Definition wf (s : db) : Prop :=
  NoDup (map User.id (users s)) /\
  Forall (fun u => 0 < User.id u) (users s) /\
  NoDup (map User.username (users s)) /\
  NoDup (map User.email (users s)) /\
  NoDup (map Note.id (notes s)).

(** ** Concrete instances, used to run the model *)
Module Scenario.

Definition key : string := "your-secret-key-change-in-production".

(** A stand-in for HS256: any function of the key and the payload. *)
Definition sign (k : string) (p : Payload.t) : Z :=
  Z.of_nat (String.length k)
  + 7 * match Payload.user_id p with Some u => u | None => 0 end
  + 13 * match Payload.exp p with Some e => e | None => 0 end.

Definition hashpw (pw : string) : string := "bcrypt$" ++ pw.
Definition checkpw (pw h : string) : bool := String.eqb ("bcrypt$" ++ pw) h.

Definition empty : db := mkDb [] [].

Definition alice := UserCreate.mk "alice" "a@x.com" "p1".
Definition bob := UserCreate.mk "bob" "b@x.com" "p2".

(** alice (id 1) and bob (id 2) registered at instant 0. *)
Definition s_users : db := snd (register hashpw 0 bob (snd (register hashpw 0 alice empty))).

Definition token_of (r : result TokenResponse.t) : Token.t :=
  match r with
  | Ok t => TokenResponse.access_token t
  | Exc _ _ => Token.mk (Payload.mk None None) 0
  end.

Definition tok_alice : Token.t :=
  token_of (fst (login key sign checkpw 0 (UserLogin.mk "alice" "p1") s_users)).
Definition tok_bob : Token.t :=
  token_of (fst (login key sign checkpw 0 (UserLogin.mk "bob" "p2") s_users)).

(** alice's note 1, ["buy milk"], created at instant 1 (one microsecond;
    both timestamp defaults read the clock within that microsecond). *)
Definition s_note : db :=
  snd (create_note_ep key sign 1 1 1 tok_alice (NoteCreate.mk "buy milk" false None) s_users).

(** A store holding a user row whose key is 0. *)
Definition root : User.t := User.mk 0 "root" "r@x.com" (hashpw "pw") 0.
Definition s_root : db := mkDb [root] [].

End Scenario.

(** * Properties *)

Ltac split_matches :=
  repeat match goal with
  | |- context [match ?x with _ => _ end] =>
      lazymatch x with
      | context [match _ with _ => _ end] => fail
      | _ => destruct x eqn:?
      end
  | H : context [match ?x with _ => _ end] |- _ =>
      lazymatch x with
      | context [match _ with _ => _ end] => fail
      | _ => destruct x eqn:?
      end
  | |- context [match ?x with _ => _ end] => destruct x eqn:?
  | H : context [match ?x with _ => _ end] |- _ => destruct x eqn:?
  end.

Lemma find_note_some (nid : Z) (l : list Note.t) (x : Note.t) :
  find (fun n => Note.id n =? nid) l = Some x -> Note.id x = nid /\ In x l.
Proof.
  intros H. apply find_some in H as [Hin Heq].
  apply Z.eqb_eq in Heq. auto.
Qed.

Lemma find_user_some (uid : Z) (l : list User.t) (x : User.t) :
  find (fun u => User.id u =? uid) l = Some x -> User.id x = uid /\ In x l.
Proof.
  intros H. apply find_some in H as [Hin Heq].
  apply Z.eqb_eq in Heq. auto.
Qed.

(** The row written by [update_note_row] is the one read back by key. *)
Lemma find_update_row (l : list Note.t) (n : Note.t) (k : Z) :
  Note.id n = k ->
  find (fun r => Note.id r =? k)
       (map (fun r => if Note.id r =? k then n else r) l)
  = if existsb (fun r => Note.id r =? k) l then Some n else None.
Proof.
  intros Hk. induction l as [|a l IH]; cbn; [reflexivity|].
  destruct (Note.id a =? k) eqn:E; cbn.
  - rewrite Hk. now rewrite Z.eqb_refl.
  - rewrite E. exact IH.
Qed.


Lemma find_existsb {A} (f : A -> bool) (l : list A) (x : A) :
  find f l = Some x -> existsb f l = true.
Proof.
  intros H. apply find_some in H as [Hin Hf].
  apply existsb_exists. eauto.
Qed.

(** What a successful [update_note] did: the row it loaded, the row it
    wrote back, and the store after the write. *)
Lemma update_note_success (nid : Z) (upd : NoteCreate.t) (u : User.t) (s s' : db)
    (n : Note.t) :
  update_note nid upd u s = (Ok n, s') ->
  exists old,
    find (fun r => Note.id r =? nid) (notes s) = Some old /\
    Note.user_id old = User.id u /\
    n = Note.mk (Note.id old) (NoteCreate.content upd) (NoteCreate.is_completed upd)
          (NoteCreate.tags upd) (Note.created_at old) (Note.updated_at old)
          (Note.user_id old) /\
    s' = mkDb (users s) (map (fun r => if Note.id r =? nid then n else r) (notes s)).
Proof.
  unfold update_note, bind, session_get_note. cbn.
  destruct (find _ (notes s)) as [old|] eqn:Hf; [|discriminate].
  destruct (negb (Note.user_id old =? User.id u)) eqn:Ho; [discriminate|].
  apply negb_false_iff, Z.eqb_eq in Ho.
  pose proof (find_note_some _ _ _ Hf) as [Hid _].
  pose proof (find_existsb _ _ _ Hf) as Hex.
  unfold update_note_row, session_refresh_note, bind, session_get_note. cbn.
  erewrite find_update_row; [|reflexivity].
  rewrite Hid, Hex. cbn.
  intros H. injection H as <- <-.
  exists old. rewrite Hid. repeat split; auto.
Qed.

(** The identity dependency reads the store and never writes it. *)
Lemma get_current_user_store (key : string) (sign : string -> Payload.t -> Z)
    (now : instant) (cred : Token.t) (s : db) :
  snd (get_current_user key sign now cred s) = s.
Proof.
  unfold get_current_user, bind, lift, session_get_user, raise, ret.
  destruct (verify_token key sign now cred) as [p|c d]; cbn; [|reflexivity].
  destruct (Payload.user_id p) as [uid|]; cbn; [|reflexivity].
  destruct (uid =? 0); cbn; [reflexivity|].
  destruct (find _ (users s)); reflexivity.
Qed.




(** An endpoint succeeds only through its handler, run on the store the
    dependency left unchanged. *)
Lemma endpoint_success {A} (key : string) (sign : string -> Payload.t -> Z)
    (now : instant) (cred : Token.t) (h : User.t -> M A) (s s' : db) (a : A) :
  (u <- get_current_user key sign now cred ;; h u) s = (Ok a, s') ->
  exists u, fst (get_current_user key sign now cred s) = Ok u /\ h u s = (Ok a, s').
Proof.
  unfold bind at 1.
  pose proof (get_current_user_store key sign now cred s) as Hs.
  destruct (get_current_user key sign now cred s) as [[u|c d] s0]; cbn in *;
    subst s0; [eauto|discriminate].
Qed.

Ltac eqb_facts :=
  repeat match goal with
  | H : negb _ = true |- _ => apply negb_true_iff in H
  | H : negb _ = false |- _ => apply negb_false_iff in H
  | H : (_ =? _) = true |- _ => apply Z.eqb_eq in H
  | H : (_ =? _) = false |- _ => apply Z.eqb_neq in H
  end.

Ltac gate_cases :=
  intros; cbn in *; split_matches; cbn in *; eqb_facts;
  repeat match goal with H : exists _, _ |- _ => destruct H end;
  repeat match goal with H : _ /\ _ |- _ => destruct H end;
  try discriminate; try congruence; eauto.

(** ** C2 *)

(** C2: for get, update and delete and any requester, the existence check
    comes first: the operation fails with 404 exactly when the id is
    absent from the store, and it fails with 403 exactly when the note
    exists and its [user_id] differs from the requester's id. *)
Theorem gate_not_found_before_forbidden (u : User.t) (nid : Z)
    (upd : NoteCreate.t) (s : db) :
  (find (fun n => Note.id n =? nid) (notes s) = None <->
     fst (get_note nid u s) = Exc 404 "Note not found") /\
  (find (fun n => Note.id n =? nid) (notes s) = None <->
     fst (update_note nid upd u s) = Exc 404 "Note not found") /\
  (find (fun n => Note.id n =? nid) (notes s) = None <->
     fst (delete_note nid u s) = Exc 404 "Note not found") /\
  ((exists d, fst (get_note nid u s) = Exc 403 d) <->
     exists n, find (fun n => Note.id n =? nid) (notes s) = Some n /\
               Note.user_id n <> User.id u) /\
  ((exists d, fst (update_note nid upd u s) = Exc 403 d) <->
     exists n, find (fun n => Note.id n =? nid) (notes s) = Some n /\
               Note.user_id n <> User.id u) /\
  ((exists d, fst (delete_note nid u s) = Exc 403 d) <->
     exists n, find (fun n => Note.id n =? nid) (notes s) = Some n /\
               Note.user_id n <> User.id u).
Proof.
  unfold get_note, update_note, delete_note, update_note_row, delete_note_row,
    session_refresh_note, session_get_note, bind, raise, ret.
  repeat split; gate_cases.
Qed.

(** ** C1 *)

(** C1 (as the code has it): after a successful [PUT /notes/{id}] at any
    instant [now], the returned and stored note carries the [updated_at] it
    had before the request; [update_note] assigns only [content],
    [is_completed] and [tags]. *)
Theorem update_note_keeps_old_updated_at (key : string)
    (sign : string -> Payload.t -> Z) (now : instant) (cred : Token.t)
    (nid : Z) (upd : NoteCreate.t) (s s' : db) (n : Note.t) :
  update_note_ep key sign now cred nid upd s = (Ok n, s') ->
  exists old,
    find (fun r => Note.id r =? nid) (notes s) = Some old /\
    find (fun r => Note.id r =? nid) (notes s') = Some n /\
    Note.updated_at n = Note.updated_at old.
Proof.
  intros H. apply endpoint_success in H as [u [_ H]].
  apply update_note_success in H as [old [Hf [_ [Hn Hs]]]].
  exists old. subst s'. split; [exact Hf|]. split.
  - cbn. erewrite find_update_row.
    + now rewrite (find_existsb _ _ _ Hf).
    + subst n. cbn. now apply find_note_some in Hf.
  - now subst n.
Qed.

(** The failing input of C1: alice's note 1, created at instant 1, updated
    one minute later; the note comes back with [updated_at = 1]. *)
Lemma update_note_keeps_old_updated_at_witness :
  exists old,
    find (fun r => Note.id r =? 1) (notes Scenario.s_note) = Some old /\
    find (fun r => Note.id r =? 1)
      (notes (mkDb (users Scenario.s_users)
                [Note.mk 1 "buy oat milk" true None 1 1 1])) =
      Some (Note.mk 1 "buy oat milk" true None 1 1 1) /\
    Note.updated_at (Note.mk 1 "buy oat milk" true None 1 1 1) = Note.updated_at old.
Proof.
  apply (update_note_keeps_old_updated_at Scenario.key Scenario.sign
           (1 + 60 * usec_per_sec) Scenario.tok_alice 1
           (NoteCreate.mk "buy oat milk" true None) Scenario.s_note).
  vm_compute. reflexivity.
Defined.

(** C1 at the failing input: the request at instant 60000001 returns the
    note with [updated_at = 1], not the instant of the update. *)
Lemma update_note_stale_updated_at_example :
  match fst (update_note_ep Scenario.key Scenario.sign (1 + 60 * usec_per_sec)
               Scenario.tok_alice 1 (NoteCreate.mk "buy oat milk" true None)
               Scenario.s_note) with
  | Ok n => Note.updated_at n = 1 /\ Note.updated_at n <> 1 + 60 * usec_per_sec
  | Exc _ _ => False
  end.
Proof. vm_compute. split; [reflexivity | discriminate]. Qed.

(** ** C6 *)

(** C6: a successful update replaces [content], [is_completed] and [tags]
    by the supplied values and keeps [id], [user_id] and [created_at]; the
    stored row under the note's key is the returned note. *)
Theorem update_note_full_replace (nid : Z) (upd : NoteCreate.t) (u : User.t)
    (s s' : db) (n : Note.t) :
  update_note nid upd u s = (Ok n, s') ->
  exists old,
    find (fun r => Note.id r =? nid) (notes s) = Some old /\
    Note.content n = NoteCreate.content upd /\
    Note.is_completed n = NoteCreate.is_completed upd /\
    Note.tags n = NoteCreate.tags upd /\
    Note.id n = Note.id old /\
    Note.user_id n = Note.user_id old /\
    Note.created_at n = Note.created_at old /\
    find (fun r => Note.id r =? nid) (notes s') = Some n.
Proof.
  intros H. apply update_note_success in H as [old [Hf [_ [Hn Hs]]]].
  exists old. subst s'. cbn.
  erewrite find_update_row.
  - rewrite (find_existsb _ _ _ Hf). subst n. cbn. repeat split; auto.
  - subst n. cbn. now apply find_note_some in Hf.
Qed.

Lemma update_note_full_replace_witness :
  exists old,
    find (fun r => Note.id r =? 1) (notes Scenario.s_note) = Some old /\
    Note.content (Note.mk 1 "buy oat milk" true (Some "shop") 1 1 1) = "buy oat milk" /\
    Note.is_completed (Note.mk 1 "buy oat milk" true (Some "shop") 1 1 1) = true /\
    Note.tags (Note.mk 1 "buy oat milk" true (Some "shop") 1 1 1) = Some "shop" /\
    Note.id (Note.mk 1 "buy oat milk" true (Some "shop") 1 1 1) = Note.id old /\
    Note.user_id (Note.mk 1 "buy oat milk" true (Some "shop") 1 1 1) = Note.user_id old /\
    Note.created_at (Note.mk 1 "buy oat milk" true (Some "shop") 1 1 1) = Note.created_at old /\
    find (fun r => Note.id r =? 1)
      (notes (mkDb (users Scenario.s_users)
                [Note.mk 1 "buy oat milk" true (Some "shop") 1 1 1])) =
      Some (Note.mk 1 "buy oat milk" true (Some "shop") 1 1 1).
Proof.
  apply (update_note_full_replace 1 (NoteCreate.mk "buy oat milk" true (Some "shop"))
           (User.mk 1 "alice" "a@x.com" "bcrypt$p1" 0) Scenario.s_note).
  vm_compute. reflexivity.
Defined.

(** ** C3 *)

Lemma numeric_date_bounds (t : instant) :
  t - usec_per_sec < numeric_date t * usec_per_sec <= t.
Proof.
  unfold numeric_date, usec_per_sec.
  pose proof (Z.div_mod t 1000000 ltac:(lia)).
  pose proof (Z.mod_pos_bound t 1000000 ltac:(lia)).
  lia.
Qed.

(** C3 (amended): a token issued at [now] for user [uid] carries [uid] and
    an expiry of [now] plus 30 minutes truncated to whole seconds (so at
    most one second before [now] plus 30 minutes); verifying it strictly
    before that expiry yields the payload with [uid], and at or after it
    fails with 401 "Token has expired". *)
Theorem issued_token_verification (key : string) (sign : string -> Payload.t -> Z)
    (now : instant) (uid : Z) (now' : instant) :
  let tok := create_access_token key sign now (Payload.mk (Some uid) None) in
  let expire := now + timedelta_minutes ACCESS_TOKEN_EXPIRE_MINUTES in
  Payload.user_id (Token.payload tok) = Some uid /\
  Payload.exp (Token.payload tok) = Some (numeric_date expire) /\
  expire - usec_per_sec < numeric_date expire * usec_per_sec <= expire /\
  verify_token key sign now' tok =
    (if numeric_date expire * usec_per_sec <=? now'
     then Exc 401 "Token has expired"
     else Ok (Token.payload tok)).
Proof.
  intros tok expire.
  split; [reflexivity|]. split; [reflexivity|].
  split; [apply numeric_date_bounds|].
  unfold verify_token, jwt_decode. subst tok. cbn.
  rewrite Z.eqb_refl. cbn.
  subst expire. cbn.
  destruct (_ <=? now'); reflexivity.
Qed.

(** C3 as stated fails: issued at 0.5 s, the token carries the expiry
    1800 s, not 1800.5 s, and at 1800.2 s, before 30 minutes have elapsed
    since issuance, it is rejected as expired. *)
Lemma issued_token_expires_before_ttl :
  Payload.exp (Token.payload
    (create_access_token Scenario.key Scenario.sign 500000
       (Payload.mk (Some 1) None))) = Some 1800 /\
  1800 * usec_per_sec <> 500000 + timedelta_minutes ACCESS_TOKEN_EXPIRE_MINUTES /\
  1800200000 < 500000 + timedelta_minutes ACCESS_TOKEN_EXPIRE_MINUTES /\
  verify_token Scenario.key Scenario.sign 1800200000
    (create_access_token Scenario.key Scenario.sign 500000
       (Payload.mk (Some 1) None)) = Exc 401 "Token has expired".
Proof.
  vm_compute. repeat split; congruence.
Qed.

(** ** C4 *)



(** ** C10 *)

(** C10: a verified payload whose [user_id] is absent or the falsy [0] is
    rejected with 401 "Invalid token" whatever the store holds, so no user
    row with key 0 is ever resolved. *)
Theorem falsy_user_id_rejected (key : string) (sign : string -> Payload.t -> Z)
    (now : instant) (tok : Token.t) (s : db) (p : Payload.t)
    (Hver : verify_token key sign now tok = Ok p)
    (Hfalsy : Payload.user_id p = None \/ Payload.user_id p = Some 0) :
  get_current_user key sign now tok s = (Exc 401 "Invalid token", s) /\
  (forall u, User.id u = 0 -> fst (get_current_user key sign now tok s) <> Ok u).
Proof.
  assert (H : get_current_user key sign now tok s = (Exc 401 "Invalid token", s)).
  { unfold get_current_user, bind, lift, raise. rewrite Hver. cbn.
    destruct Hfalsy as [-> | ->]; reflexivity. }
  split; [exact H|]. intros u _. rewrite H. discriminate.
Qed.

Lemma falsy_user_id_rejected_witness :
  get_current_user Scenario.key Scenario.sign 1
      (create_access_token Scenario.key Scenario.sign 0
         (Payload.mk (Some 0) None)) Scenario.s_root =
    (Exc 401 "Invalid token", Scenario.s_root) /\
  (forall u, User.id u = 0 ->
     fst (get_current_user Scenario.key Scenario.sign 1
            (create_access_token Scenario.key Scenario.sign 0
               (Payload.mk (Some 0) None)) Scenario.s_root) <> Ok u).
Proof.
  apply (falsy_user_id_rejected _ _ _ _ _ (Payload.mk (Some 0) (Some 1800))).
  - vm_compute. reflexivity.
  - right. reflexivity.
Defined.

(** ** C5 *)

(** C5: [GET /notes] returns, in table order, exactly the stored notes
    whose [user_id] is the requester's id. *)
Theorem get_notes_owner_isolation (u : User.t) (s : db) :
  exists l,
    get_notes u s = (Ok l, s) /\
    l = filter (fun n => Note.user_id n =? User.id u) (notes s) /\
    (forall n, In n l <-> In n (notes s) /\ Note.user_id n = User.id u).
Proof.
  eexists. split; [reflexivity|]. split; [reflexivity|].
  intros n. rewrite filter_In, Z.eqb_eq. reflexivity.
Qed.

(** ** C7 *)

(** C7: [/login] fails exactly when the username is unknown or the
    password does not verify, and in both cases with the same 401 and the
    same detail; every failure is that one error. *)
Theorem login_failures_indistinguishable (key : string)
    (sign : string -> Payload.t -> Z) (checkpw : string -> string -> bool)
    (now : instant) (data : UserLogin.t) (s : db) :
  (fst (login key sign checkpw now data s) = Exc 401 INCORRECT_CREDENTIALS <->
     find (fun u => String.eqb (User.username u) (UserLogin.username data)) (users s) = None \/
     exists u,
       find (fun u => String.eqb (User.username u) (UserLogin.username data)) (users s) = Some u /\
       checkpw (UserLogin.password data) (User.hashed_password u) = false) /\
  ((exists r, fst (login key sign checkpw now data s) = Ok r) \/
   fst (login key sign checkpw now data s) = Exc 401 INCORRECT_CREDENTIALS) /\
  snd (login key sign checkpw now data s) = s.
Proof.
  unfold login, select_user_by_username, bind, raise, ret. cbn.
  destruct (find _ (users s)) as [u|] eqn:Hf; cbn.
  - destruct (checkpw (UserLogin.password data) (User.hashed_password u)) eqn:Hc; cbn.
    + split; [|split; [eauto|reflexivity]].
      split; [discriminate|]. intros [H|(u' & Hu' & Hc')]; [discriminate|].
      injection Hu' as <-. congruence.
    + split; [|split; [eauto|reflexivity]]. split; eauto.
  - split; [|split; [eauto|reflexivity]]. split; eauto.
Qed.

(** ** C8 *)




(** ** C9 *)

Lemma endpoint_fails_cleanly {A} (key : string) (sign : string -> Payload.t -> Z)
    (now : instant) (cred : Token.t) (h : User.t -> M A) (s : db) :
  (forall u, fails_cleanly s (h u s)) ->
  fails_cleanly s ((u <- get_current_user key sign now cred ;; h u) s).
Proof.
  intros Hh. unfold bind at 1.
  pose proof (get_current_user_store key sign now cred s) as Hs.
  destruct (get_current_user key sign now cred s) as [[u|c d] s0]; cbn in Hs;
    subst s0; [apply Hh | reflexivity].
Qed.

Ltac clean_cases :=
  unfold fails_cleanly, bind, raise, ret, lift; cbn; split_matches; cbn in *;
  try discriminate; auto.

(** C9: every request that raises (404, 403, 401, the 500 of a token
    whose signature does not verify, and also 400 at registration) leaves the store exactly as it found it: no user or note
    row is created, changed or deleted on an error path. *)
Theorem error_paths_leave_store (key : string) (sign : string -> Payload.t -> Z)
    (hashpw : string -> string) (checkpw : string -> string -> bool)
    (now t_created t_updated : instant) (cred : Token.t) (nid : Z) (upd : NoteCreate.t)
    (user_data : UserCreate.t) (login_data : UserLogin.t) (s : db) :
  fails_cleanly s (get_current_user key sign now cred s) /\
  fails_cleanly s (get_notes_ep key sign now cred s) /\
  fails_cleanly s (get_note_ep key sign now cred nid s) /\
  fails_cleanly s (create_note_ep key sign now t_created t_updated cred upd s) /\
  fails_cleanly s (update_note_ep key sign now cred nid upd s) /\
  fails_cleanly s (delete_note_ep key sign now cred nid s) /\
  fails_cleanly s (register hashpw now user_data s) /\
  fails_cleanly s (login key sign checkpw now login_data s).
Proof.
  split.
  { unfold fails_cleanly. rewrite get_current_user_store.
    destruct (fst _); reflexivity. }
  repeat split;
    try (apply endpoint_fails_cleanly; intros u;
         unfold get_notes, select_notes_by_user, get_note, create_note,
           update_note, delete_note, session_get_note, insert_note,
           update_note_row, delete_note_row, session_refresh_note);
    try (unfold register, select_user_by_username, select_user_by_email, insert_user);
    try (unfold login, select_user_by_username);
    clean_cases.
Qed.

(** ** The concrete scenario of the spec, run on the model *)

Example scenario_note_owner :
  find (fun n => Note.id n =? 1) (notes Scenario.s_note) =
    Some (Note.mk 1 "buy milk" false None 1 1 1).
Proof. vm_compute. reflexivity. Qed.

Example scenario_bob_forbidden :
  fst (get_note_ep Scenario.key Scenario.sign 2 Scenario.tok_bob 1 Scenario.s_note) =
    Exc 403 "Not authorized to access this note".
Proof. vm_compute. reflexivity. Qed.

Example scenario_missing_id :
  fst (get_note_ep Scenario.key Scenario.sign 2 Scenario.tok_alice 99999 Scenario.s_note) =
    Exc 404 "Note not found".
Proof. vm_compute. reflexivity. Qed.

Example scenario_delete_then_get :
  fst (delete_note_ep Scenario.key Scenario.sign 2 Scenario.tok_alice 1 Scenario.s_note) =
    Ok (DeleteResponse.mk "Note deleted successfully" 1) /\
  fst (get_note_ep Scenario.key Scenario.sign 3 Scenario.tok_alice 1
         (snd (delete_note_ep Scenario.key Scenario.sign 2 Scenario.tok_alice 1
                 Scenario.s_note))) = Exc 404 "Note not found".
Proof. vm_compute. split; reflexivity. Qed.

(** * Further properties of the service *)

(** ** Content validation *)

Lemma forallb_lstrip (l : list ascii) :
  forallb py_isspace (lstrip_chars l) = forallb py_isspace l.
Proof.
  induction l as [|c l IH]; cbn; [reflexivity|].
  destruct (py_isspace c) eqn:Hc; cbn; [exact IH|now rewrite Hc].
Qed.

Lemma lstrip_nil (l : list ascii) :
  lstrip_chars l = [] <-> forallb py_isspace l = true.
Proof.
  induction l as [|c l IH]; cbn; [tauto|].
  destruct (py_isspace c); cbn; [exact IH|].
  split; discriminate.
Qed.

Lemma forallb_rev_ascii (f : ascii -> bool) (l : list ascii) :
  forallb f (rev l) = forallb f l.
Proof.
  apply eq_true_iff_eq. rewrite !forallb_forall.
  split; intros H x Hx; apply H; [apply in_rev in Hx | apply in_rev]; exact Hx.
Qed.

Lemma string_of_list_ascii_nil (l : list ascii) :
  string_of_list_ascii l = "" <-> l = [].
Proof. destruct l; cbn; split; congruence. Qed.

(** [py_strip] leaves nothing exactly when every character is whitespace. *)
Lemma py_strip_empty (v : string) :
  py_strip v = "" <-> forallb py_isspace (list_ascii_of_string v) = true.
Proof.
  unfold py_strip. rewrite string_of_list_ascii_nil.
  split.
  - intros H. apply (f_equal (@rev ascii)) in H. rewrite rev_involutive in H.
    apply lstrip_nil in H. now rewrite forallb_rev_ascii, forallb_lstrip in H.
  - intros H. enough (Hn : lstrip_chars (rev (lstrip_chars (list_ascii_of_string v))) = [])
      by now rewrite Hn.
    apply lstrip_nil. now rewrite forallb_rev_ascii, forallb_lstrip.
Qed.

(** The content validator rejects exactly the strings made only of
    whitespace (the empty string among them), with "Content cannot be
    empty", and accepts every other string unchanged: leading and trailing
    whitespace is not removed from the stored content. *)
Theorem content_validator_blank_iff (v : string) :
  content_must_not_be_empty v =
    if forallb py_isspace (list_ascii_of_string v)
    then ValueError "Content cannot be empty"
    else Valid v.
Proof.
  unfold content_must_not_be_empty.
  destruct (String.eqb v "") eqn:He; cbn.
  - apply String.eqb_eq in He. now subst v.
  - destruct (String.eqb (py_strip v) "") eqn:Hs.
    + apply String.eqb_eq, py_strip_empty in Hs. now rewrite Hs.
    + destruct (forallb py_isspace (list_ascii_of_string v)) eqn:Hf; [|reflexivity].
      apply py_strip_empty, String.eqb_eq in Hf. congruence.
Qed.

Example content_validator_cases :
  content_must_not_be_empty "" = ValueError "Content cannot be empty" /\
  content_must_not_be_empty "   " = ValueError "Content cannot be empty" /\
  content_must_not_be_empty " buy milk " = Valid " buy milk ".
Proof. vm_compute. repeat split. Qed.

(** ** Note creation *)

Lemma fold_max_bound (k : Z) (ks : list Z) :
  k <= fold_right Z.max k ks /\ Forall (fun x => x <= fold_right Z.max k ks) ks.
Proof.
  induction ks as [|x ks [Hk Hall]]; [cbn; split; [lia|constructor]|].
  change (fold_right Z.max k (x :: ks)) with (Z.max x (fold_right Z.max k ks)).
  pose proof (Z.le_max_l x (fold_right Z.max k ks)).
  pose proof (Z.le_max_r x (fold_right Z.max k ks)).
  split; [lia|]. constructor; [lia|].
  eapply Forall_impl; [|exact Hall]. intros y Hy. cbv beta in *. lia.
Qed.

(** The new key is larger than every key in the table. *)
Lemma next_id_gt (ids : list Z) : Forall (fun x => x < next_id ids) ids.
Proof.
  destruct ids as [|k ks]; cbn; [constructor|].
  destruct (fold_max_bound k ks) as [Hk Hall].
  constructor; [lia|]. eapply Forall_impl; [|exact Hall]. intros y Hy. cbv beta in *. lia.
Qed.

(** On a table whose keys are positive, the new key is positive. *)
Lemma next_id_pos (ids : list Z) : Forall (fun x => 0 < x) ids -> 0 < next_id ids.
Proof.
  destruct ids as [|k ks]; cbn; [lia|].
  intros H. inversion H; subst. destruct (fold_max_bound k ks). lia.
Qed.

Lemma find_note_append_fresh (l : list Note.t) (n : Note.t) :
  Forall (fun r => Note.id r < Note.id n) l ->
  find (fun r => Note.id r =? Note.id n) (l ++ [n]) = Some n.
Proof.
  induction 1 as [|r l Hr _ IH]; cbn; [now rewrite Z.eqb_refl|].
  destruct (Note.id r =? Note.id n) eqn:E; [apply Z.eqb_eq in E; lia|exact IH].
Qed.

Lemma map_id_lt (l : list Note.t) (k : Z) :
  Forall (fun x => x < k) (map Note.id l) -> Forall (fun r => Note.id r < k) l.
Proof. intros H. now apply Forall_map in H. Qed.

(** The run of [create_note]: the row it appends and returns, under a key
    above every key of the table. *)
Lemma create_note_run (t_created t_updated : instant) (input : NoteCreate.t)
    (u : User.t) (s : db) :
  let n := Note.mk (next_id (map Note.id (notes s))) (NoteCreate.content input)
             (NoteCreate.is_completed input) (NoteCreate.tags input)
             t_created t_updated (User.id u) in
  create_note t_created t_updated input u s = (Ok n, mkDb (users s) (notes s ++ [n])) /\
  (forall r, In r (notes s) -> Note.id r < Note.id n).
Proof.
  intros n.
  pose proof (next_id_gt (map Note.id (notes s))) as Hall.
  apply map_id_lt in Hall.
  split.
  - pose proof (find_note_append_fresh _ n Hall) as Hf.
    unfold create_note, insert_note, session_refresh_note, session_get_note, bind, ret.
    subst n. cbn in Hf |- *. rewrite Hf. reflexivity.
  - intros r Hr. rewrite Forall_forall in Hall. now apply Hall.
Qed.




(** ** Update frame *)

(** A successful update keeps the user rows and the note keys. *)
Lemma update_note_keys (nid : Z) (upd : NoteCreate.t) (u : User.t)
    (s s' : db) (n : Note.t) :
  update_note nid upd u s = (Ok n, s') ->
  users s' = users s /\ map Note.id (notes s') = map Note.id (notes s).
Proof.
  intros H. apply update_note_success in H as [old [Hf [_ [Hn Hs]]]].
  apply find_note_some in Hf as [Hid _].
  subst s'. cbn. split; [reflexivity|].
  rewrite map_map. apply map_ext. intros r.
  destruct (Note.id r =? nid) eqn:E; [apply Z.eqb_eq in E; subst n; cbn; congruence|reflexivity].
Qed.

(** A successful [PUT /notes/{id}] changes no user row, keeps the list of
    note keys as it was, and leaves every note under another key as it
    was. *)
Theorem update_note_frame (nid : Z) (upd : NoteCreate.t) (u : User.t)
    (s s' : db) (n : Note.t)
    (H : update_note nid upd u s = (Ok n, s')) :
  users s' = users s /\
  map Note.id (notes s') = map Note.id (notes s) /\
  (forall k, k <> nid ->
     find (fun r => Note.id r =? k) (notes s') = find (fun r => Note.id r =? k) (notes s)).
Proof.
  destruct (update_note_keys _ _ _ _ _ _ H) as [Hu Hmap].
  split; [exact Hu|]. split; [exact Hmap|]. clear Hu Hmap.
  apply update_note_success in H as [old [Hf [_ [Hn Hs]]]].
  apply find_note_some in Hf as [Hid _].
  assert (Hnid : Note.id n = nid) by now subst n.
  subst s'. cbn.
  intros k Hk. induction (notes s) as [|r l IH]; cbn; [reflexivity|].
  destruct (Note.id r =? nid) eqn:E; cbn.
  - apply Z.eqb_eq in E. rewrite Hnid.
    destruct (nid =? k) eqn:E1; [apply Z.eqb_eq in E1; congruence|].
    rewrite E, E1. exact IH.
  - destruct (Note.id r =? k); [reflexivity|exact IH].
Qed.

Lemma update_note_frame_witness :
  users (mkDb (users Scenario.s_users) [Note.mk 1 "buy oat milk" true None 1 1 1]) =
    users Scenario.s_note /\
  map Note.id (notes (mkDb (users Scenario.s_users) [Note.mk 1 "buy oat milk" true None 1 1 1])) =
    map Note.id (notes Scenario.s_note) /\
  (forall k, k <> 1 ->
     find (fun r => Note.id r =? k)
       (notes (mkDb (users Scenario.s_users) [Note.mk 1 "buy oat milk" true None 1 1 1])) =
     find (fun r => Note.id r =? k) (notes Scenario.s_note)).
Proof.
  apply (update_note_frame 1 (NoteCreate.mk "buy oat milk" true None)
           (User.mk 1 "alice" "a@x.com" "bcrypt$p1" 0) Scenario.s_note
           (mkDb (users Scenario.s_users) [Note.mk 1 "buy oat milk" true None 1 1 1])
           (Note.mk 1 "buy oat milk" true None 1 1 1)).
  vm_compute. reflexivity.
Defined.

(** ** Authentication comes first *)



(** An expired token of alice's gets the 401 of the first [except]
    clause on every note endpoint. *)
Example expired_token_401 :
  get_notes_ep Scenario.key Scenario.sign (1800 * usec_per_sec) Scenario.tok_alice
    Scenario.s_note = (Exc 401 "Token has expired", Scenario.s_note) /\
  delete_note_ep Scenario.key Scenario.sign (1800 * usec_per_sec) Scenario.tok_alice 1
    Scenario.s_note = (Exc 401 "Token has expired", Scenario.s_note).
Proof. vm_compute. split; reflexivity. Qed.

(** ** Signature before expiry *)



(** ** Registration *)

(** [/register] checks the username before the email: it fails with 400
    "Username already exists" exactly when a user has that username, and
    with 400 "Email already exists" exactly when the username is free and a
    user has that email. *)
Theorem register_conflicts (hashpw : string -> string) (now : instant)
    (ud : UserCreate.t) (s : db) :
  (fst (register hashpw now ud s) = Exc 400 "Username already exists" <->
     exists u, find (fun u => String.eqb (User.username u) (UserCreate.username ud))
                 (users s) = Some u) /\
  (fst (register hashpw now ud s) = Exc 400 "Email already exists" <->
     find (fun u => String.eqb (User.username u) (UserCreate.username ud)) (users s) = None /\
     exists u, find (fun u => String.eqb (User.email u) (UserCreate.email ud))
                 (users s) = Some u).
Proof.
  unfold register, select_user_by_username, select_user_by_email, insert_user,
    bind, raise, ret. cbn.
  destruct (find _ (users s)) as [u|] eqn:Hu; cbn.
  - split; split; eauto; [discriminate|]. intros [H _]; discriminate.
  - destruct (find (fun u => String.eqb (User.email u) _) (users s)) as [e|] eqn:He; cbn.
    + split; split; eauto; [discriminate|]. intros [u H]; discriminate.
    + split; split; try discriminate.
      * intros [u H]; discriminate.
      * intros [_ [u H]]; discriminate.
Qed.

Lemma find_user_none_not_in {B} (f : User.t -> B) (x : B)
    (eqb : B -> B -> bool) (Heqb : forall a b, eqb a b = true <-> a = b)
    (l : list User.t) :
  find (fun u => eqb (f u) x) l = None -> ~ In x (map f l).
Proof.
  intros Hn Hin. apply in_map_iff in Hin as [u [Hu Hin]].
  pose proof (find_none _ _ Hn u Hin) as Hf. cbn in Hf.
  rewrite Hu in Hf. assert (eqb x x = true) by now apply Heqb. congruence.
Qed.

(** The run of a successful [register]. *)
Lemma register_ok (hashpw : string -> string) (now : instant)
    (ud : UserCreate.t) (s s' : db) (u : User.t) :
  register hashpw now ud s = (Ok u, s') ->
  find (fun u => String.eqb (User.username u) (UserCreate.username ud)) (users s) = None /\
  find (fun u => String.eqb (User.email u) (UserCreate.email ud)) (users s) = None /\
  u = User.mk (next_id (map User.id (users s))) (UserCreate.username ud)
        (UserCreate.email ud) (hashpw (UserCreate.password ud)) now /\
  s' = mkDb (users s ++ [u]) (notes s).
Proof.
  unfold register, select_user_by_username, select_user_by_email, insert_user,
    bind, raise, ret. cbn.
  destruct (find _ (users s)) as [x|] eqn:Hu; cbn; [discriminate|].
  destruct (find (fun u => String.eqb (User.email u) _) (users s)) as [e|] eqn:He;
    cbn; [discriminate|].
  intros H. injection H as <- <-. auto.
Qed.



Lemma find_app_none {A} (f : A -> bool) (l : list A) (x : A) :
  find f l = None -> f x = true -> find f (l ++ [x]) = Some x.
Proof.
  intros Hn Hx. induction l as [|a l IH]; cbn in *; [now rewrite Hx|].
  destruct (f a); [discriminate|]. exact (IH Hn).
Qed.

(** Registering and then logging in with the same username and password
    succeeds, provided the password check accepts the password against its
    own hash: the token is issued for the new user's key. *)
Theorem register_then_login (hashpw : string -> string)
    (checkpw : string -> string -> bool) (key : string)
    (sign : string -> Payload.t -> Z) (now now' : instant) (ud : UserCreate.t)
    (s s' : db) (u : User.t)
    (Hreg : register hashpw now ud s = (Ok u, s'))
    (Hpw : checkpw (UserCreate.password ud) (hashpw (UserCreate.password ud)) = true) :
  login key sign checkpw now'
      (UserLogin.mk (UserCreate.username ud) (UserCreate.password ud)) s' =
    (Ok (TokenResponse.mk
           (create_access_token key sign now' (Payload.mk (Some (User.id u)) None))
           "bearer"), s').
Proof.
  apply register_ok in Hreg as (Hu & _ & Hnew & Hs).
  unfold login, select_user_by_username, bind, raise, ret. cbn.
  rewrite Hs. cbn.
  rewrite (find_app_none _ _ u Hu); [|subst u; cbn; apply String.eqb_refl].
  cbn. subst u. cbn. now rewrite Hpw.
Qed.

Lemma register_then_login_witness :
  login Scenario.key Scenario.sign Scenario.checkpw 7 (UserLogin.mk "carol" "p3")
      (mkDb (users Scenario.s_users ++ [User.mk 3 "carol" "c@x.com" "bcrypt$p3" 5])%list
            (notes Scenario.s_users)) =
    (Ok (TokenResponse.mk
           (create_access_token Scenario.key Scenario.sign 7 (Payload.mk (Some 3) None))
           "bearer"),
     mkDb (users Scenario.s_users ++ [User.mk 3 "carol" "c@x.com" "bcrypt$p3" 5])%list
          (notes Scenario.s_users)).
Proof.
  apply (register_then_login Scenario.hashpw Scenario.checkpw Scenario.key Scenario.sign
           5 7 (UserCreate.mk "carol" "c@x.com" "p3") Scenario.s_users
           (mkDb (users Scenario.s_users ++ [User.mk 3 "carol" "c@x.com" "bcrypt$p3" 5])%list
                 (notes Scenario.s_users))
           (User.mk 3 "carol" "c@x.com" "bcrypt$p3" 5)).
  - vm_compute. reflexivity.
  - vm_compute. reflexivity.
Defined.

(** ** Login and identity resolution *)

Lemma find_user_by_own_id (l : list User.t) (u : User.t) :
  NoDup (map User.id l) -> In u l -> find (fun r => User.id r =? User.id u) l = Some u.
Proof.
  induction l as [|a l IH]; cbn; [tauto|].
  intros Hnd [<- | Hin]; [now rewrite Z.eqb_refl|].
  inversion Hnd as [|? ? Hnot Hnd']; subst.
  destruct (User.id a =? User.id u) eqn:E.
  - apply Z.eqb_eq in E. exfalso. apply Hnot. rewrite E. now apply in_map.
  - exact (IH Hnd' Hin).
Qed.

(** On a well-formed store, the token [/login] returns resolves to the user
    that logged in at any instant up to 29 minutes 59 seconds after the
    login. *)
Theorem login_then_resolve (key : string) (sign : string -> Payload.t -> Z)
    (checkpw : string -> string -> bool) (now now' : instant)
    (ld : UserLogin.t) (s s' : db) (r : TokenResponse.t)
    (Hwf : wf s)
    (Hl : login key sign checkpw now ld s = (Ok r, s'))
    (Ht : now' < now + timedelta_minutes ACCESS_TOKEN_EXPIRE_MINUTES - usec_per_sec) :
  exists u,
    find (fun u => String.eqb (User.username u) (UserLogin.username ld)) (users s) = Some u /\
    get_current_user key sign now' (TokenResponse.access_token r) s' = (Ok u, s').
Proof.
  destruct Hwf as (Hids & Hpos & _).
  revert Hl. unfold login, select_user_by_username, bind, raise, ret. cbn.
  destruct (find _ (users s)) as [u|] eqn:Hu; cbn; [|discriminate].
  destruct (checkpw _ _); cbn; [|discriminate].
  intros H. injection H as <- <-. exists u. split; [reflexivity|].
  apply find_some in Hu as [Hin _].
  rewrite Forall_forall in Hpos. specialize (Hpos u Hin).
  pose proof (numeric_date_bounds (now + timedelta_minutes ACCESS_TOKEN_EXPIRE_MINUTES)).
  unfold get_current_user, verify_token, jwt_decode, bind, lift, session_get_user,
    raise, ret. cbn.
  rewrite Z.eqb_refl. cbn.
  destruct (_ <=? now') eqn:E; [apply Z.leb_le in E; unfold numeric_date,
    timedelta_minutes, ACCESS_TOKEN_EXPIRE_MINUTES, usec_per_sec in *;
    change (30 * 60 * 1000000) with 1800000000 in *; lia|].
  cbn. destruct (User.id u =? 0) eqn:E0; [apply Z.eqb_eq in E0; lia|].
  cbn. now rewrite (find_user_by_own_id _ _ Hids Hin).
Qed.

Lemma login_then_resolve_witness :
  exists u,
    find (fun u => String.eqb (User.username u) "alice") (users Scenario.s_users) = Some u /\
    get_current_user Scenario.key Scenario.sign (1799 * usec_per_sec - 1)
      (TokenResponse.access_token
         (TokenResponse.mk (create_access_token Scenario.key Scenario.sign 0
                              (Payload.mk (Some 1) None)) "bearer"))
      Scenario.s_users = (Ok u, Scenario.s_users).
Proof.
  apply (login_then_resolve Scenario.key Scenario.sign Scenario.checkpw 0
           (1799 * usec_per_sec - 1) (UserLogin.mk "alice" "p1") Scenario.s_users
           Scenario.s_users
           (TokenResponse.mk (create_access_token Scenario.key Scenario.sign 0
                                (Payload.mk (Some 1) None)) "bearer")).
  - vm_compute. repeat split; repeat constructor; cbn; intuition discriminate.
  - vm_compute. reflexivity.
  - vm_compute. reflexivity.
Defined.

(** ** The store invariant *)

Lemma NoDup_snoc {A} (l : list A) (x : A) :
  NoDup l -> ~ In x l -> NoDup (l ++ [x]).
Proof.
  induction l as [|a l IH]; cbn; intros Hnd Hx.
  - constructor; [intros []|constructor].
  - inversion Hnd as [|? ? Hnot Hnd']; subst.
    constructor.
    + intros Hin. apply in_app_or in Hin as [Hin|[Ha|[]]]; [contradiction|].
      apply Hx. now left.
    + apply IH; [exact Hnd'|]. intros Hin. apply Hx. now right.
Qed.

(** Deleting rows keeps the remaining note keys distinct. *)
Lemma note_keys_filter_NoDup (keep : Note.t -> bool) (rows : list Note.t) :
  NoDup (map Note.id rows) -> NoDup (map Note.id (filter keep rows)).
Proof.
  induction rows as [|a l IH]; cbn; [auto|].
  intros Hnd. inversion Hnd as [|? ? Hnot Hnd']; subst.
  destruct (keep a); cbn; [|auto].
  constructor; [|auto].
  intros Hin. apply Hnot. apply in_map_iff in Hin as [y [Hy Hin]].
  apply filter_In in Hin as [Hin _]. rewrite <- Hy. now apply in_map.
Qed.

Lemma lt_not_in (l : list Z) (k : Z) : Forall (fun x => x < k) l -> ~ In k l.
Proof.
  intros H Hin. rewrite Forall_forall in H. specialize (H k Hin). lia.
Qed.

Lemma update_note_exc (nid : Z) (upd : NoteCreate.t) (u : User.t) (s s' : db)
    (c : Z) (d : string) :
  update_note nid upd u s = (Exc c d, s') -> s' = s.
Proof.
  unfold update_note, update_note_row, session_refresh_note, session_get_note,
    bind, raise, ret. cbn. split_matches; cbn in *; congruence.
Qed.

Lemma delete_note_exc (nid : Z) (u : User.t) (s s' : db) (c : Z) (d : string) :
  delete_note nid u s = (Exc c d, s') -> s' = s.
Proof.
  unfold delete_note, delete_note_row, session_get_note, bind, raise, ret. cbn.
  split_matches; cbn in *; congruence.
Qed.

Lemma register_exc (hashpw : string -> string) (now : instant) (ud : UserCreate.t)
    (s s' : db) (c : Z) (d : string) :
  register hashpw now ud s = (Exc c d, s') -> s' = s.
Proof.
  unfold register, select_user_by_username, select_user_by_email, insert_user,
    bind, raise, ret. cbn. split_matches; cbn in *; congruence.
Qed.

Lemma login_store (key : string) (sign : string -> Payload.t -> Z)
    (checkpw : string -> string -> bool) (now : instant) (ld : UserLogin.t) (s : db) :
  snd (login key sign checkpw now ld s) = s.
Proof.
  unfold login, select_user_by_username, bind, raise, ret. cbn.
  split_matches; reflexivity.
Qed.

Lemma endpoint_wf {A} (key : string) (sign : string -> Payload.t -> Z)
    (now : instant) (cred : Token.t) (h : User.t -> M A) (s : db) :
  wf s -> (forall u, wf (snd (h u s))) ->
  wf (snd ((u <- get_current_user key sign now cred ;; h u) s)).
Proof.
  intros Hwf Hh. unfold bind at 1.
  pose proof (get_current_user_store key sign now cred s) as Hs.
  destruct (get_current_user key sign now cred s) as [[u|c d] s0]; cbn in Hs;
    subst s0; [apply Hh | exact Hwf].
Qed.

(** Every endpoint keeps the store well formed: user keys distinct and
    positive, usernames and emails distinct, note keys distinct. *)
Theorem endpoints_preserve_wf (key : string) (sign : string -> Payload.t -> Z)
    (hashpw : string -> string) (checkpw : string -> string -> bool)
    (now t_created t_updated : instant) (cred : Token.t) (nid : Z) (input : NoteCreate.t)
    (ud : UserCreate.t) (ld : UserLogin.t) (s : db)
    (Hwf : wf s) :
  wf (snd (create_note_ep key sign now t_created t_updated cred input s)) /\
  wf (snd (get_notes_ep key sign now cred s)) /\
  wf (snd (get_note_ep key sign now cred nid s)) /\
  wf (snd (update_note_ep key sign now cred nid input s)) /\
  wf (snd (delete_note_ep key sign now cred nid s)) /\
  wf (snd (register hashpw now ud s)) /\
  wf (snd (login key sign checkpw now ld s)).
Proof.
  destruct Hwf as (Hids & Hpos & Hnames & Hemails & Hnids).
  assert (Hwf : wf s) by (repeat split; assumption).
  assert (Hnotes : forall l, NoDup (map Note.id l) -> wf (mkDb (users s) l))
    by (intros l Hl; repeat split; assumption).
  split; [|split; [|split; [|split; [|split; [|split]]]]].
  - apply endpoint_wf; [exact Hwf|]. intros u.
    destruct (create_note_run t_created t_updated input u s) as [Hc Hlt].
    rewrite Hc. cbn. apply Hnotes. rewrite map_app. cbn.
    apply NoDup_snoc; [exact Hnids|].
    apply lt_not_in. apply Forall_map, Forall_forall. exact Hlt.
  - apply endpoint_wf; [exact Hwf|]. intros u. exact Hwf.
  - apply endpoint_wf; [exact Hwf|]. intros u.
    unfold get_note, session_get_note, bind, raise, ret. cbn.
    split_matches; exact Hwf.
  - apply endpoint_wf; [exact Hwf|]. intros u.
    destruct (update_note nid input u s) as [[n|c d] s'] eqn:E; cbn.
    + apply update_note_keys in E as (Hu & Hmap).
      destruct s' as [us ns]. cbn in Hu, Hmap. subst us.
      apply Hnotes. rewrite Hmap. exact Hnids.
    + apply update_note_exc in E. now subst s'.
  - apply endpoint_wf; [exact Hwf|]. intros u.
    destruct (delete_note nid u s) as [[r|c d] s'] eqn:E; cbn.
    + revert E. unfold delete_note, delete_note_row, session_get_note, bind, raise, ret.
      cbn. destruct (find _ (notes s)) as [n|]; cbn; [|discriminate].
      destruct (negb _); cbn; [discriminate|].
      intros H. injection H as _ <-. apply Hnotes. now apply note_keys_filter_NoDup.
    + apply delete_note_exc in E. now subst s'.
  - destruct (register hashpw now ud s) as [[u|c d] s'] eqn:E; cbn.
    + pose proof (next_id_gt (map User.id (users s))) as Hlt.
      pose proof (next_id_pos (map User.id (users s))
                    (proj2 (Forall_map _ _ _) Hpos)) as Hp.
      rewrite Forall_forall in Hlt.
      apply register_ok in E as (Hu & He & Hnew & Hs). subst s'.
      assert (Hu' : ~ In (UserCreate.username ud) (map User.username (users s))).
      { apply (find_user_none_not_in User.username _ String.eqb); [|exact Hu].
        intros a b. apply String.eqb_eq. }
      assert (He' : ~ In (UserCreate.email ud) (map User.email (users s))).
      { apply (find_user_none_not_in User.email _ String.eqb); [|exact He].
        intros a b. apply String.eqb_eq. }
      unfold wf. cbn. rewrite !map_app. cbn. subst u. cbn in *.
      repeat split.
      * apply NoDup_snoc; [exact Hids|]. intros Hin.
        specialize (Hlt _ Hin). lia.
      * apply Forall_app. split; [exact Hpos|]. constructor; [exact Hp|constructor].
      * now apply NoDup_snoc.
      * now apply NoDup_snoc.
      * exact Hnids.
    + apply register_exc in E. now subst s'.
  - now rewrite login_store.
Qed.

Lemma endpoints_preserve_wf_witness :
  wf (snd (create_note_ep Scenario.key Scenario.sign 1 1 2 Scenario.tok_alice
             (NoteCreate.mk "buy milk" false None) Scenario.s_users)) /\
  wf (snd (get_notes_ep Scenario.key Scenario.sign 1 Scenario.tok_alice Scenario.s_users)) /\
  wf (snd (get_note_ep Scenario.key Scenario.sign 1 Scenario.tok_alice 1 Scenario.s_users)) /\
  wf (snd (update_note_ep Scenario.key Scenario.sign 1 Scenario.tok_alice 1
             (NoteCreate.mk "buy milk" false None) Scenario.s_users)) /\
  wf (snd (delete_note_ep Scenario.key Scenario.sign 1 Scenario.tok_alice 1 Scenario.s_users)) /\
  wf (snd (register Scenario.hashpw 1 (UserCreate.mk "carol" "c@x.com" "p3")
             Scenario.s_users)) /\
  wf (snd (login Scenario.key Scenario.sign Scenario.checkpw 1
             (UserLogin.mk "alice" "p1") Scenario.s_users)).
Proof.
  apply endpoints_preserve_wf.
  vm_compute. repeat split; repeat constructor; cbn; intuition discriminate.
Defined.
